(** * Breach-trend component: derived tables and chart selection

    A shallow embedding of [BreachLocationTrends] (the React component of
    the interactive visualisation) and the properties of its literal
    tables, of the two derived arrays and of the chart selection.

    Conventions of the embedding:
    - numeric literals of the tables are kept as they are written: an
      integer literal is a [Z], a decimal literal is a [Q];
    - arithmetic the component performs on them is IEEE 754 binary64, the
      only number type of the language, through the executable
      specification of the Standard Library ([SpecFloat]);
    - an object with a fixed set of keys is a record, the [COLORS] object a
      finite map from names to colour strings, an array a list;
    - a computation that can raise (reading a property of [undefined])
      returns [option], [None] standing for the [TypeError]. *)

From Stdlib Require Import ZArith QArith Qabs Qpower Lia SpecFloat Sorted Permutation.
From stdpp Require Import gmap strings list pretty.

Local Open Scope Z_scope.

(** ** Numbers *)

Module Number.

Definition prec : Z := 53.
Definition emax : Z := 1024.

(** A number value: binary64. *)
Definition number : Type := spec_float.

Definition zero : number := S754_zero false.

(** The value of an integer literal. *)
Definition of_int (z : Z) : number := binary_normalize prec emax z 0 false.

(** The value of a decimal literal, or of a decimal text that is read: the
    quotient of its numerator and denominator, rounded once to
    nearest-even. *)
Definition lit (q : Q) : number :=
  let denominator := S754_finite false (Qden q) 0 in
  match Qnum q with
  | Z0 => zero
  | Zpos n => SFdiv prec emax (S754_finite false n 0) denominator
  | Zneg n => SFdiv prec emax (S754_finite true n 0) denominator
  end.

Definition sub : number -> number -> number := SFsub prec emax.
Definition mul : number -> number -> number := SFmul prec emax.
Definition div : number -> number -> number := SFdiv prec emax.
Definition neg : number -> number := SFopp.

(** [x < y], [x > y] and [x >= y]; all false when an operand is NaN. *)
Definition lt (x y : number) : bool := SFltb x y.
Definition gt (x y : number) : bool := SFltb y x.
Definition ge (x y : number) : bool := SFleb y x.

Definition is_finite (x : number) : bool :=
  match x with
  | S754_zero _ | S754_finite _ _ _ => true
  | _ => false
  end.

(** The rational a finite number denotes (0 for the others). *)
Definition exact (x : number) : Q :=
  match x with
  | S754_finite s m e =>
      let v := if 0 <=? e then inject_Z (Zpos m * 2 ^ e)
               else Qmake (Zpos m) (Z.to_pos (2 ^ (- e))) in
      if s then Qopp v else v
  | _ => 0%Q
  end.

(** The nearest integer to [a / b] for [0 <= a] and [0 < b], the larger
    one at a tie. *)
Definition nearest_up (a b : Z) : Z := (2 * a + b) / (2 * b).

(** The text [toFixed(1)] returns, by its parts: a sign and the integer
    [n] whose last digit stands after the point, or, for a number that is
    not finite or is at least 10^21, the text of that number itself. *)
Inductive fixed1 : Type :=
| Fixed (negative : bool) (n : Z)
| Verbatim (x : number).

(** [x.toFixed(1)]: for finite [x] below 10^21 in magnitude, take the sign
    off, let [n] be the integer for which [n / 10 - x] is closest to zero,
    the larger at a tie. A negative zero is not below zero and prints
    without sign. *)
Definition toFixed1 (x : number) : fixed1 :=
  match x with
  | S754_zero _ => Fixed false 0
  | S754_finite s m e =>
      if 0 <=? e then
        if 10 ^ 21 <=? Zpos m * 2 ^ e then Verbatim x
        else Fixed s (10 * (Zpos m * 2 ^ e))
      else Fixed s (nearest_up (10 * Zpos m) (2 ^ (- e)))
  | _ => Verbatim x
  end.

(** A value handed to [parseFloat]: the text of [toFixed], or a number,
    which is first turned to text. *)
Inductive value : Type :=
| VText (t : fixed1)
| VNumber (x : number).

(** [parseFloat(v)]. The text of a number reads back as that number,
    except that a negative zero prints as "0"; the text "-0.0" reads as a
    negative zero. *)
Definition parseFloat (v : value) : number :=
  match v with
  | VText (Fixed s n) =>
      let x := lit (Qmake n 10) in if s then neg x else x
  | VText (Verbatim x) => x
  | VNumber (S754_zero _) => zero
  | VNumber x => x
  end.

End Number.

Import Number.

(** ** The literal tables *)

(** A row of [locationTrendsData]. *)
Record counts : Type := {
  year : Z;
  Network_Server : Z;
  Email : Z;
  Electronic_Medical_Record : Z;
  Paper_Films : Z;
  Other : Z;
  Desktop_Computer : Z;
  Total : Z
}.

Definition locationTrendsData : list counts := [
  {| year := 2015; Network_Server := 11; Email := 15; Electronic_Medical_Record := 9; Paper_Films := 17; Other := 9; Desktop_Computer := 4; Total := 65 |};
  {| year := 2016; Network_Server := 65; Email := 30; Electronic_Medical_Record := 18; Paper_Films := 25; Other := 40; Desktop_Computer := 12; Total := 190 |};
  {| year := 2017; Network_Server := 65; Email := 65; Electronic_Medical_Record := 21; Paper_Films := 14; Other := 40; Desktop_Computer := 5; Total := 210 |};
  {| year := 2018; Network_Server := 48; Email := 80; Electronic_Medical_Record := 14; Paper_Films := 26; Other := 38; Desktop_Computer := 8; Total := 214 |};
  {| year := 2019; Network_Server := 97; Email := 149; Electronic_Medical_Record := 18; Paper_Films := 20; Other := 50; Desktop_Computer := 9; Total := 343 |};
  {| year := 2020; Network_Server := 199; Email := 167; Electronic_Medical_Record := 22; Paper_Films := 24; Other := 40; Desktop_Computer := 3; Total := 455 |};
  {| year := 2021; Network_Server := 264; Email := 155; Electronic_Medical_Record := 24; Paper_Films := 9; Other := 28; Desktop_Computer := 2; Total := 482 |};
  {| year := 2022; Network_Server := 258; Email := 137; Electronic_Medical_Record := 53; Paper_Films := 6; Other := 18; Desktop_Computer := 3; Total := 475 |};
  {| year := 2023; Network_Server := 302; Email := 104; Electronic_Medical_Record := 19; Paper_Films := 13; Other := 10; Desktop_Computer := 2; Total := 450 |};
  {| year := 2024; Network_Server := 330; Email := 134; Electronic_Medical_Record := 17; Paper_Films := 12; Other := 21; Desktop_Computer := 3; Total := 517 |};
  {| year := 2025; Network_Server := 111; Email := 42; Electronic_Medical_Record := 8; Paper_Films := 4; Other := 8; Desktop_Computer := 0; Total := 173 |}
].

(** A row of [percentageDistributionData]. *)
Record percentages : Type := {
  pyear : Z;
  Network_Server_pct : Q;
  Email_pct : Q;
  Electronic_Medical_Record_pct : Q;
  Paper_Films_pct : Q;
  Other_pct : Q;
  Desktop_Computer_pct : Q
}.

Definition percentageDistributionData : list percentages := [
  {| pyear := 2015; Network_Server_pct := 16.9; Email_pct := 23.1; Electronic_Medical_Record_pct := 13.8; Paper_Films_pct := 26.2; Other_pct := 13.8; Desktop_Computer_pct := 6.2 |};
  {| pyear := 2016; Network_Server_pct := 34.2; Email_pct := 15.8; Electronic_Medical_Record_pct := 9.5; Paper_Films_pct := 13.2; Other_pct := 21.1; Desktop_Computer_pct := 6.3 |};
  {| pyear := 2017; Network_Server_pct := 31.0; Email_pct := 31.0; Electronic_Medical_Record_pct := 10.0; Paper_Films_pct := 6.7; Other_pct := 19.0; Desktop_Computer_pct := 2.4 |};
  {| pyear := 2018; Network_Server_pct := 22.4; Email_pct := 37.4; Electronic_Medical_Record_pct := 6.5; Paper_Films_pct := 12.1; Other_pct := 17.8; Desktop_Computer_pct := 3.7 |};
  {| pyear := 2019; Network_Server_pct := 28.3; Email_pct := 43.4; Electronic_Medical_Record_pct := 5.2; Paper_Films_pct := 5.8; Other_pct := 14.6; Desktop_Computer_pct := 2.6 |};
  {| pyear := 2020; Network_Server_pct := 43.7; Email_pct := 36.7; Electronic_Medical_Record_pct := 4.8; Paper_Films_pct := 5.3; Other_pct := 8.8; Desktop_Computer_pct := 0.7 |};
  {| pyear := 2021; Network_Server_pct := 54.8; Email_pct := 32.2; Electronic_Medical_Record_pct := 5.0; Paper_Films_pct := 1.9; Other_pct := 5.8; Desktop_Computer_pct := 0.4 |};
  {| pyear := 2022; Network_Server_pct := 54.3; Email_pct := 28.8; Electronic_Medical_Record_pct := 11.2; Paper_Films_pct := 1.3; Other_pct := 3.8; Desktop_Computer_pct := 0.6 |};
  {| pyear := 2023; Network_Server_pct := 67.1; Email_pct := 23.1; Electronic_Medical_Record_pct := 4.2; Paper_Films_pct := 2.9; Other_pct := 2.2; Desktop_Computer_pct := 0.4 |};
  {| pyear := 2024; Network_Server_pct := 63.8; Email_pct := 25.9; Electronic_Medical_Record_pct := 3.3; Paper_Films_pct := 2.3; Other_pct := 4.1; Desktop_Computer_pct := 0.6 |};
  {| pyear := 2025; Network_Server_pct := 64.2; Email_pct := 24.3; Electronic_Medical_Record_pct := 4.6; Paper_Films_pct := 2.3; Other_pct := 4.6; Desktop_Computer_pct := 0.0 |}
]%Q.

(** ** The growth series of the Network Server category *)

(** An element of [networkServerGrowthData]. *)
Record growthPoint : Type := {
  gyear : Z;
  growth : number
}.

Section ArrayMap.
Context {A B : Type}.

(** [array.map(callback)]: the callback receives the element, its index
    and the array; an exception of the callback ends the whole call. *)
Fixpoint map_from (callback : A -> nat -> list A -> option B)
    (array : list A) (index : nat) (rest : list A) : option (list B) :=
  match rest with
  | [] => Some []
  | item :: rest' =>
      match callback item index array with
      | None => None
      | Some b =>
          match map_from callback array (S index) rest' with
          | None => None
          | Some bs => Some (b :: bs)
          end
      end
  end.

Definition Array_map (callback : A -> nat -> list A -> option B)
    (array : list A) : option (list B) :=
  map_from callback array 0 array.
End ArrayMap.

(** [(item - prev) / prev * 100] on the Network Server counts. *)
Definition growthQuotient (prevYear item : counts) : number :=
  mul (div (sub (of_int (Network_Server item)) (of_int (Network_Server prevYear)))
           (of_int (Network_Server prevYear)))
      (of_int 100).

(** The constant [growthRate] of the callback: the text of [toFixed(1)]
    when the previous count is positive, the number 0 otherwise. *)
Definition growthRate (prevYear item : counts) : value :=
  if 0 <? Network_Server prevYear
  then VText (toFixed1 (growthQuotient prevYear item))
  else VNumber zero.

(** The callback of the [map]. [array[index - 1]] is [undefined] out of
    range, and reading its count would raise. *)
Definition growthCallback (item : counts) (index : nat) (array : list counts)
    : option growthPoint :=
  if Nat.eqb index 0 then Some {| gyear := year item; growth := zero |}
  else
    match array !! (index - 1)%nat with
    | None => None
    | Some prevYear =>
        Some {| gyear := year item;
                growth := parseFloat (growthRate prevYear item) |}
    end.

(** [table.map(...).filter(item => item.year < 2025)] *)
Definition growthSeries (table : list counts) : option (list growthPoint) :=
  match Array_map growthCallback table with
  | None => None
  | Some points => Some (filter (λ item, gyear item < 2025) points)
  end.

Definition networkServerGrowthData : option (list growthPoint) :=
  growthSeries locationTrendsData.

(** ** The ranking of the categories by CAGR *)

(** An element of [locationGrowthRates]. *)
Record growthRateEntry : Type := {
  name : string;
  cagr : Q
}.

Section ArraySort.
Context {A : Type} (comparefn : A -> A -> number).

(** [comparefn(x, y) > 0]: [y] is to stand before [x]. A NaN counts as
    zero, as the language prescribes. *)
Definition sorts_after (x y : A) : bool := gt (comparefn x y) zero.

(** The language fixes the result of [sort] for a consistent comparator
    and not the algorithm: the elements in the order of the comparator,
    those it holds equal in the order they had. Stable insertion from the
    right computes it. *)
Fixpoint insert (x : A) (sorted : list A) : list A :=
  match sorted with
  | [] => [x]
  | y :: rest => if sorts_after x y then y :: insert x rest else x :: sorted
  end.

Fixpoint Array_sort (array : list A) : list A :=
  match array with
  | [] => []
  | x :: rest => insert x (Array_sort rest)
  end.

(** [x] may stand before [y]. *)
Definition may_precede (x y : A) : Prop := sorts_after x y = false.

(** The comparator holds [x] and [y] equal. *)
Definition tied (x y : A) : Prop := may_precede x y /\ may_precede y x.

(** The comparator is consistent on the elements of [l]: of two elements
    one may stand before the other, and [may_precede] is transitive. *)
Definition consistentb (l : list A) : bool :=
  forallb (fun x => forallb (fun y =>
    (negb (sorts_after x y) || negb (sorts_after y x))
    && forallb (fun z =>
         sorts_after x y || sorts_after y z || negb (sorts_after x z)) l) l) l.

(** What [consistentb] decides. *)
Definition consistent (l : list A) : Prop :=
  (forall x y, x ∈ l -> y ∈ l -> sorts_after x y = true -> may_precede y x)
  /\ (forall x y z, x ∈ l -> y ∈ l -> z ∈ l ->
        may_precede x y -> may_precede y z -> may_precede x z).

#[export] Instance may_precede_dec (x y : A) : Decision (may_precede x y).
Proof. unfold may_precede. apply _. Defined.

#[export] Instance tied_dec (x y : A) : Decision (tied x y).
Proof. unfold tied, may_precede. apply _. Defined.
End ArraySort.

(** [(a, b) => b.cagr - a.cagr] *)
Definition byCagrDescending (a b : growthRateEntry) : number :=
  sub (lit (cagr b)) (lit (cagr a)).

Definition locationGrowthRatesLiteral : list growthRateEntry := [
  {| name := "Network Server"; cagr := 45.92 |};
  {| name := "Email"; cagr := 27.55 |};
  {| name := "Electronic Medical Record"; cagr := 7.32 |};
  {| name := "Other"; cagr := 9.87 |};
  {| name := "Paper/Films"; cagr := -3.80 |};
  {| name := "Desktop Computer"; cagr := -3.15 |}
]%Q.

Definition locationGrowthRates : list growthRateEntry :=
  Array_sort byCagrDescending locationGrowthRatesLiteral.

(** ** The colour scheme *)

Definition COLORS : gmap string string :=
  list_to_map [
    ("Network Server", "#8884d8");
    ("Email", "#82ca9d");
    ("Electronic Medical Record", "#ffc658");
    ("Paper/Films", "#ff8042");
    ("Other", "#a4de6c");
    ("Desktop Computer", "#d0ed57")
  ].

(** The six categories, by the keys the tables use. *)
Definition categories : list string := [
  "Network Server"; "Email"; "Electronic Medical Record";
  "Paper/Films"; "Other"; "Desktop Computer"
].

(** ** The charts *)

Inductive chartKind : Type := LineChart | AreaChart | BarChart.

(** The array bound to the [data] property of a chart. *)
Inductive chartData : Type :=
| CountsData (rows : list counts)
| PercentageData (rows : list percentages)
| GrowthData (rows : list growthPoint)
| RatesData (rows : list growthRateEntry).

(** A [Bar] nested in the [Bar] of the comparison chart, one per entry of
    the ranking: the index of its key and its fill. *)
Record nestedBar : Type := {
  barIndex : nat;
  barDataKey : string;
  barFill : string
}.

(** A [Line], [Area] or [Bar] of a chart. A property that is not given, or
    is given as [undefined], is [None]. *)
Record series : Type := {
  dataKey : string;
  stroke : option string;
  fill : option string;
  nested : list nestedBar
}.

Record chart : Type := {
  heading : string;
  kind : chartKind;
  data : chartData;
  xAxisKey : option string;
  yAxisKey : option string;
  seriesList : list series
}.

Definition Line (key : string) (colour : option string) : series :=
  {| dataKey := key; stroke := colour; fill := None; nested := [] |}.

Definition Area (key : string) (colour : option string) : series :=
  {| dataKey := key; stroke := colour; fill := colour; nested := [] |}.

Definition Bar (key : string) (colour : option string) (children : list nestedBar)
    : series :=
  {| dataKey := key; stroke := None; fill := colour; nested := children |}.

Definition absoluteChart : chart :=
  {| heading := "Absolute Number of Breaches by System Location";
     kind := LineChart;
     data := CountsData locationTrendsData;
     xAxisKey := Some "year";
     yAxisKey := None;
     seriesList := [
       Line "Network Server" (COLORS !! "Network Server");
       Line "Email" (COLORS !! "Email");
       Line "Electronic Medical Record" (COLORS !! "Electronic Medical Record");
       Line "Paper/Films" (COLORS !! "Paper/Films");
       Line "Other" (COLORS !! "Other");
       Line "Desktop Computer" (COLORS !! "Desktop Computer")
     ] |}.

Definition percentageChart : chart :=
  {| heading := "Percentage Distribution of Breaches by System Location";
     kind := LineChart;
     data := PercentageData percentageDistributionData;
     xAxisKey := Some "year";
     yAxisKey := None;
     seriesList := [
       Line "Network Server (%)" (COLORS !! "Network Server");
       Line "Email (%)" (COLORS !! "Email");
       Line "Electronic Medical Record (%)" (COLORS !! "Electronic Medical Record");
       Line "Paper/Films (%)" (COLORS !! "Paper/Films");
       Line "Other (%)" (COLORS !! "Other");
       Line "Desktop Computer (%)" (COLORS !! "Desktop Computer")
     ] |}.

Definition stackedChart : chart :=
  {| heading := "Stacked View of Breaches by System Location";
     kind := AreaChart;
     data := CountsData locationTrendsData;
     xAxisKey := Some "year";
     yAxisKey := None;
     seriesList := [
       Area "Network Server" (COLORS !! "Network Server");
       Area "Email" (COLORS !! "Email");
       Area "Electronic Medical Record" (COLORS !! "Electronic Medical Record");
       Area "Paper/Films" (COLORS !! "Paper/Films");
       Area "Other" (COLORS !! "Other");
       Area "Desktop Computer" (COLORS !! "Desktop Computer")
     ] |}.

Definition networkServerGrowthChart (growthData : list growthPoint) : chart :=
  {| heading := "Annual Growth Rate of Network Server Breaches";
     kind := BarChart;
     data := GrowthData growthData;
     xAxisKey := Some "year";
     yAxisKey := None;
     seriesList := [ Bar "growth" (COLORS !! "Network Server") [] ] |}.

(** [entry.cagr >= 0 ? '#82ca9d' : '#ff7373'] *)
Definition signFill (entry : growthRateEntry) : string :=
  if ge (lit (cagr entry)) zero then "#82ca9d" else "#ff7373".

Definition growthComparisonChart (rates : list growthRateEntry) : chart :=
  {| heading := "Compound Annual Growth Rate by Location (2015-2024)";
     kind := BarChart;
     data := RatesData rates;
     xAxisKey := None;
     yAxisKey := Some "name";
     seriesList := [
       Bar "cagr" (Some "#8884d8")
         (imap (fun index entry =>
                  {| barIndex := index; barDataKey := "cagr";
                     barFill := signFill entry |}) rates)
     ] |}.

(** ** The component *)


Definition chartTypeOptions : list string :=
  ["absolute"; "percentage"; "stacked"; "networkServerGrowth"; "growthComparison"].


(** [cond && element]: the element when the condition holds, nothing
    otherwise. *)
Definition when (cond : bool) (element : chart) : list chart :=
  if cond then [element] else [].

(** What one evaluation of the component builds: the two derived arrays and
    the charts of the chart area, in the order of the source. *)
Record rendering : Type := {
  growthData : list growthPoint;
  ranking : list growthRateEntry;
  chartArea : list chart
}.

Definition BreachLocationTrends (chartType : string) : option rendering :=
  match growthSeries locationTrendsData with
  | None => None
  | Some networkServerGrowthData =>
      let locationGrowthRates :=
        Array_sort byCagrDescending locationGrowthRatesLiteral in
      Some {|
        growthData := networkServerGrowthData;
        ranking := locationGrowthRates;
        chartArea :=
          when (String.eqb chartType "absolute") absoluteChart
          ++ when (String.eqb chartType "percentage") percentageChart
          ++ when (String.eqb chartType "stacked") stackedChart
          ++ when (String.eqb chartType "networkServerGrowth")
               (networkServerGrowthChart networkServerGrowthData)
          ++ when (String.eqb chartType "growthComparison")
               (growthComparisonChart locationGrowthRates)
      |}
  end.

(** ** The literal arrays as objects *)

(** [map] and [filter] build new arrays and leave theirs as it was; [sort]
    reorders its array in place and returns it. A derivation takes the
    arrays it reads and returns its result with the arrays as it leaves
    them. *)
Record arrays : Type := {
  trends : list counts;
  rates : list growthRateEntry
}.

Definition literalArrays : arrays :=
  {| trends := locationTrendsData; rates := locationGrowthRatesLiteral |}.

Definition deriveGrowth (s : arrays) : option (list growthPoint) * arrays :=
  (growthSeries (trends s), s).

Definition deriveRanking (s : arrays) : list growthRateEntry * arrays :=
  let sorted := Array_sort byCagrDescending (rates s) in
  (sorted, {| trends := trends s; rates := sorted |}).

(** ** Notions the properties are stated with *)

(** The sum of the six category counts of a row. *)
Definition categorySum (row : counts) : Z :=
  Network_Server row + Email row + Electronic_Medical_Record row
  + Paper_Films row + Other row + Desktop_Computer row.

(** The sum of the six percentages of a row. *)
Definition percentageSum (row : percentages) : Q :=
  (Network_Server_pct row + Email_pct row + Electronic_Medical_Record_pct row
   + Paper_Films_pct row + Other_pct row + Desktop_Computer_pct row)%Q.

(** [(C - P) / P * 100] as a rational. *)
Definition exactGrowth (P C : Z) : Q :=
  ((inject_Z C - inject_Z P) / inject_Z P * 100)%Q.

(** A rational rounded to one decimal place, in tenths: the nearest tenth,
    the one away from zero at a tie. *)
Definition round1 (q : Q) : Z :=
  let a := Z.abs (10 * Qnum q) in
  let b := Zpos (Qden q) in
  Z.sgn (Qnum q) * nearest_up a b.

(** The number with the decimal text [n / 10]. *)
Definition tenths (n : Z) : number := lit (Qmake n 10).

(** Descending order of the CAGR values as they are written. *)
Definition cagrDescending (a b : growthRateEntry) : Prop := (cagr b <= cagr a)%Q.

(** Two entries with the same CAGR value. *)
Definition sameCagr (a b : growthRateEntry) : Prop := (cagr a == cagr b)%Q.

(** The chart area for a value of the selector (empty also if the
    evaluation raised). *)
Definition chartsOf (chartType : string) : list chart :=
  match BreachLocationTrends chartType with
  | Some r => chartArea r
  | None => []
  end.

(** A series plots a category when its key is the name of the category or
    that name followed by " (%)"; the series "growth" plots the growth of
    Network Server. *)
Definition plots (category : string) (s : series) : bool :=
  String.eqb (dataKey s) category
  || String.eqb (dataKey s) (category +:+ " (%)")
  || (String.eqb (dataKey s) "growth" && String.eqb category "Network Server").

Definition seriesColours (s : series) : list string :=
  option_list (stroke s) ++ option_list (fill s).

(** The names of the rows of a chart over the ranking. *)
Definition rowNames (d : chartData) : list string :=
  match d with
  | RatesData rows => map name rows
  | _ => []
  end.

(** The colours of the bar of a category in a chart over the ranking: the
    fill of the enclosing bar and the fill of the nested bar of its row. *)
Definition barColours (c : chart) (category : string) : list string :=
  flat_map (fun s =>
    flat_map (fun b =>
      if bool_decide (rowNames (data c) !! barIndex b = Some category)
      then option_list (fill s) ++ [barFill b] else []) (nested s))
    (seriesList c).

(** Every colour a chart draws a category with. *)
Definition categoryColours (c : chart) (category : string) : list string :=
  flat_map seriesColours (filter (λ s, plots category s = true) (seriesList c))
  ++ barColours c category.

(** ** The tooltip *)

(** [s.includes(sub)]: [sub] starts at some position of [s]. *)
Fixpoint includes (s sub : string) : bool :=
  String.prefix sub s
  || match s with
     | EmptyString => false
     | String _ rest => includes rest sub
     end.

(** The sign after a value:
    [name.includes('%') ? '%' : name === 'growth' ? '%' : ''] *)
Definition valueSuffix (entryName : string) : string :=
  if includes entryName "%" then "%"
  else if String.eqb entryName "growth" then "%" else "".

Section CustomTooltip.
Context {V L : Type}.

(** The text a value and a label have inside a template literal. *)
Context (textOfValue : V -> string) (textOfLabel : L -> string).

(** An entry of the [payload] the chart hands to the tooltip. *)
Record payloadEntry : Type := {
  entryName : string;
  entryValue : V;
  entryColor : string
}.

(** A paragraph of the tooltip: its key, its colour and its text. *)
Record tooltipLine : Type := {
  lineKey : string;
  lineColor : string;
  lineText : string
}.

(** The box of the tooltip: the paragraph in bold and one paragraph per
    entry. *)
Record tooltipBox : Type := {
  boxHeading : string;
  boxLines : list tooltipLine
}.

(** [CustomTooltip({ active, payload, label })]. The box is built when
    [active && payload && payload.length] holds: a payload that is missing
    and one of length 0 both count as false. [None] is the [null] the
    component returns otherwise. *)
Definition CustomTooltip (active : bool) (payload : option (list payloadEntry))
    (label : L) : option tooltipBox :=
  match payload with
  | Some entries =>
      if active && negb (Nat.eqb (length entries) 0) then
        Some {|
          boxHeading := "Year: " +:+ textOfLabel label;
          boxLines :=
            imap (fun index entry =>
                    {| lineKey := "item-" +:+ pretty index;
                       lineColor := entryColor entry;
                       lineText :=
                         entryName entry +:+ ": "
                         +:+ textOfValue (entryValue entry)
                         +:+ valueSuffix (entryName entry) |}) entries
        |}
      else None
  | None => None
  end.
End CustomTooltip.

(** ** The rows as objects *)

(** A row of the counts table with its keys as they are written. *)
Definition countsObject (row : counts) : gmap string Z :=
  list_to_map [
    ("year", year row);
    ("Network Server", Network_Server row);
    ("Email", Email row);
    ("Electronic Medical Record", Electronic_Medical_Record row);
    ("Paper/Films", Paper_Films row);
    ("Other", Other row);
    ("Desktop Computer", Desktop_Computer row);
    ("Total", Total row)
  ].

(** The percentages of a row of the percentage table with their keys. *)
Definition percentagesObject (row : percentages) : gmap string Q :=
  list_to_map [
    ("Network Server (%)", Network_Server_pct row);
    ("Email (%)", Email_pct row);
    ("Electronic Medical Record (%)", Electronic_Medical_Record_pct row);
    ("Paper/Films (%)", Paper_Films_pct row);
    ("Other (%)", Other_pct row);
    ("Desktop Computer (%)", Desktop_Computer_pct row)
  ].

(** The keys of the objects of an array bound to a chart. *)
Definition rowKeys (d : chartData) : list string :=
  match d with
  | CountsData _ =>
      ["year"; "Network Server"; "Email"; "Electronic Medical Record";
       "Paper/Films"; "Other"; "Desktop Computer"; "Total"]
  | PercentageData _ =>
      ["year"; "Network Server (%)"; "Email (%)";
       "Electronic Medical Record (%)"; "Paper/Films (%)"; "Other (%)";
       "Desktop Computer (%)"]
  | GrowthData _ => ["year"; "growth"]
  | RatesData _ => ["name"; "cagr"]
  end.

(** The keys a chart reads its rows with: those of its axes, of its series
    and of the bars nested in them. *)
Definition chartKeys (c : chart) : list string :=
  option_list (xAxisKey c) ++ option_list (yAxisKey c)
  ++ flat_map (fun s => dataKey s :: map barDataKey (nested s)) (seriesList c).

(** The share of a count in a total, in percent, as a rational. *)
Definition share (n total : Z) : Q := (inject_Z n / inject_Z total * 100)%Q.

(** A rate in percent, given to two decimals, is the compound annual growth
    rate from [first] to [last] over [years] years: the growth factor of
    the rate, raised to the number of years, takes [first] to [last], within
    half a unit of the last decimal of the rate. *)
Definition isCagr (rate : Q) (first last years : Z) : Prop :=
  ((1 + (rate - 0.005) / 100) ^ years * inject_Z first <= inject_Z last
   /\ inject_Z last <= (1 + (rate + 0.005) / 100) ^ years * inject_Z first)%Q.

(** The array the [map] of the growth series builds, by recursion on the
    table: each row with the row before it. *)

(** The point the callback builds for [item] after [prev]. *)
Definition pointAfter (prev : option counts) (item : counts) : growthPoint :=
  match prev with
  | None => {| gyear := year item; growth := zero |}
  | Some prevYear =>
      {| gyear := year item; growth := parseFloat (growthRate prevYear item) |}
  end.

Fixpoint pointsAfter (prev : option counts) (rest : list counts)
    : list growthPoint :=
  match rest with
  | [] => []
  | item :: rest' => pointAfter prev item :: pointsAfter (Some item) rest'
  end.

(** * Properties *)

(** ** The [map] of the growth series never raises *)

Lemma growthCallback_at (before : list counts) (item : counts) (rest : list counts) :
  growthCallback item (length before) (before ++ item :: rest)
  = Some (pointAfter (last before) item).
Proof.
  unfold growthCallback.
  destruct before as [|d before] using rev_ind; [reflexivity|].
  rewrite length_app, last_snoc. simpl length.
  replace (length before + 1)%nat with (S (length before)) by lia.
  simpl Nat.eqb. cbv iota.
  replace (S (length before) - 1)%nat with (length before) by lia.
  rewrite <- app_assoc. simpl app.
  rewrite list_lookup_middle by reflexivity. reflexivity.
Qed.

Lemma map_from_growth (rest before : list counts) :
  map_from growthCallback (before ++ rest) (length before) rest
  = Some (pointsAfter (last before) rest).
Proof.
  revert before. induction rest as [|item rest IH]; intros before; [reflexivity|].
  simpl map_from. rewrite growthCallback_at.
  specialize (IH (before ++ [item])).
  rewrite <- app_assoc, length_app, last_snoc in IH. simpl in IH.
  replace (length before + 1)%nat with (S (length before)) in IH by lia.
  rewrite IH. reflexivity.
Qed.

Lemma Array_map_growth (table : list counts) :
  Array_map growthCallback table = Some (pointsAfter None table).
Proof. exact (map_from_growth table []). Qed.

Lemma growthSeries_eq (table : list counts) :
  growthSeries table
  = Some (filter (λ item, gyear item < 2025) (pointsAfter None table)).
Proof. unfold growthSeries. rewrite Array_map_growth. reflexivity. Qed.

Lemma pointsAfter_years (prev : option counts) (table : list counts) :
  map gyear (pointsAfter prev table) = map year table.
Proof.
  revert prev. induction table as [|item table IH]; intros prev; [reflexivity|].
  simpl. rewrite IH. destruct prev; reflexivity.
Qed.

Lemma pointsAfter_lookup (table : list counts) (start : option counts)
    (i : nat) (prev item : counts) :
  table !! i = Some prev -> table !! S i = Some item ->
  pointsAfter start table !! S i = Some (pointAfter (Some prev) item).
Proof.
  revert start i. induction table as [|r table IH]; intros start i Hp Hi.
  - discriminate.
  - destruct i as [|i]; simpl in *.
    + injection Hp as ->. destruct table as [|r' table]; [discriminate|].
      simpl in *. injection Hi as ->. reflexivity.
    + apply IH; assumption.
Qed.

Lemma filter_years (points : list growthPoint) :
  map gyear (filter (λ item, gyear item < 2025) points)
  = filter (λ y, y < 2025) (map gyear points).
Proof.
  induction points as [|p points IH]; [reflexivity|].
  simpl map. rewrite !filter_cons. simpl.
  destruct (decide (gyear p < 2025)); simpl; rewrite IH; reflexivity.
Qed.


(** ** The growth series: its length and its years *)

(** C1, as the claim states it, fails: the series of the literal table does
    not have 9 elements without the year 2015. It has 10, and its first
    element is the point of 2015, with growth 0. *)
Lemma growth_series_keeps_first_year :
  (exists points,
      networkServerGrowthData = Some points
      /\ length points = 10%nat
      /\ {| gyear := 2015; growth := zero |} ∈ points)
  /\ ~ (exists points,
          networkServerGrowthData = Some points
          /\ length points = 9%nat
          /\ length points = (length locationTrendsData - 1 - 1)%nat
          /\ forall p, p ∈ points -> gyear p <> 2015 /\ gyear p <> 2025).
Proof.
  split.
  - eexists. split; [vm_compute; reflexivity|].
    split; [reflexivity|]. left.
  - intros (points & Hpoints & Hlen & _).
    vm_compute in Hpoints. injection Hpoints as <-. discriminate Hlen.
Qed.

(** C1 (amended): the callback of the [map] returns a point for every row,
    the first row included (with growth 0), and the [filter] drops the
    points whose year is not below 2025. So for every table the series is
    built without error and its years are the years of the table below
    2025, in order; for the literal table it has 10 elements, the number of
    rows minus 1, for the years 2015 to 2024: it starts with the point of
    2015, with growth 0, and has no point of 2025. *)
Theorem growth_series_length :
  (forall table : list counts,
      exists points,
        growthSeries table = Some points
        /\ map gyear points = filter (λ y, y < 2025) (map year table))
  /\ exists points,
       networkServerGrowthData = Some points
       /\ length points = 10%nat
       /\ length points = (length locationTrendsData - 1)%nat
       /\ map gyear points
          = [2015; 2016; 2017; 2018; 2019; 2020; 2021; 2022; 2023; 2024]
       /\ points !! 0%nat = Some {| gyear := 2015; growth := zero |}
       /\ forall p, p ∈ points -> gyear p <> 2025.
Proof.
  split.
  - intros table. eexists. split; [apply growthSeries_eq|].
    rewrite filter_years, pointsAfter_years. reflexivity.
  - unfold networkServerGrowthData. rewrite growthSeries_eq.
    eexists. split; [reflexivity|].
    assert (Hyears :
      map gyear (filter (λ item, gyear item < 2025)
                   (pointsAfter None locationTrendsData))
      = [2015; 2016; 2017; 2018; 2019; 2020; 2021; 2022; 2023; 2024])
      by (vm_compute; reflexivity).
    split; [|split; [|split]].
    + rewrite <- (length_map gyear), Hyears. reflexivity.
    + rewrite <- (length_map gyear), Hyears. reflexivity.
    + exact Hyears.
    + split; [reflexivity|]. intros p Hp Hy.
      assert (Hin : gyear p ∈ map gyear (filter (λ item, gyear item < 2025)
                                           (pointsAfter None locationTrendsData)))
        by (apply list_elem_of_fmap; eauto).
      rewrite Hyears, Hy in Hin.
      apply list_elem_of_In in Hin. simpl in Hin.
      repeat (destruct Hin as [Hin|Hin]; [discriminate Hin|]). exact Hin.
Qed.

(** ** The literal tables *)

(** C3: in each of the 11 rows of the counts table, for the years 2015 to
    2025, the six category counts add up to the Total of the row. *)
Theorem counts_rows_sum_to_total :
  Forall (fun row => categorySum row = Total row) locationTrendsData
  /\ map year locationTrendsData
     = [2015; 2016; 2017; 2018; 2019; 2020; 2021; 2022; 2023; 2024; 2025].
Proof.
  split; [|reflexivity].
  unfold locationTrendsData. repeat constructor.
Qed.

(** C7: in every row of the percentage table, one per year from 2015 to
    2025, the six percentages add up to 100.0 within 0.2. *)
Theorem percentage_rows_sum_to_100 :
  Forall (fun row => (Qabs (percentageSum row - 100) <= 0.2)%Q)
    percentageDistributionData
  /\ map pyear percentageDistributionData
     = [2015; 2016; 2017; 2018; 2019; 2020; 2021; 2022; 2023; 2024; 2025].
Proof.
  split; [|reflexivity].
  unfold percentageDistributionData.
  repeat (constructor; [apply Qle_bool_imp_le; vm_compute; reflexivity|]).
  constructor.
Qed.

(** ** The growth values *)

Lemma nearest_up_bounds (a b : Z) :
  0 < b -> 2 * b * nearest_up a b - b <= 2 * a < 2 * b * nearest_up a b + b.
Proof.
  intros Hb. unfold nearest_up.
  pose proof (Z.div_mod (2 * a + b) (2 * b)) as Hdiv.
  pose proof (Z.mod_pos_bound (2 * a + b) (2 * b)) as Hmod.
  lia.
Qed.

(** [round1] yields a nearest tenth: [10 * q] and [round1 q] differ by at
    most one half. *)
Lemma round1_nearest (q : Q) :
  Z.abs (2 * (10 * Qnum q) - 2 * Zpos (Qden q) * round1 q) <= Zpos (Qden q).
Proof.
  unfold round1.
  pose proof (nearest_up_bounds (Z.abs (10 * Qnum q)) (Zpos (Qden q))) as H.
  specialize (H ltac:(lia)).
  destruct (Qnum q) as [|n|n]; cbn [Z.sgn] in *; lia.
Qed.

(** The integer of the text of [toFixed(1)] is a nearest one to ten times
    the magnitude of the number, the larger of the two at a tie. *)
Lemma toFixed1_nearest (x : number) (s : bool) (n : Z) :
  toFixed1 x = Fixed s n ->
  (inject_Z n - (1 # 2) <= 10 * Qabs (exact x))%Q
  /\ (10 * Qabs (exact x) < inject_Z n + (1 # 2))%Q.
Proof.
  destruct x as [s0|s0| |s0 m e]; simpl; try discriminate.
  - intros [= <- <-]. split; [unfold Qle|unfold Qlt]; simpl; lia.
  - assert (Habs : forall v : Q, Qabs (if s0 then Qopp v else v) == Qabs v)
      by (intros v; destruct s0; [apply Qabs_opp|reflexivity]).
    destruct (0 <=? e) eqn:He.
    + destruct (10 ^ 21 <=? Z.pos m * 2 ^ e); [discriminate|].
      intros [= <- <-]. rewrite Habs.
      apply Z.leb_le in He.
      assert (Hpos : 0 < Z.pos m * 2 ^ e)
        by (apply Z.mul_pos_pos; [lia|apply Z.pow_pos_nonneg; lia]).
      rewrite Qabs_pos by (unfold Qle; simpl; lia).
      unfold Qle, Qlt; simpl. lia.
    + intros [= <- <-]. rewrite Habs.
      apply Z.leb_gt in He.
      assert (Hpow : 0 < 2 ^ (- e)) by (apply Z.pow_pos_nonneg; lia).
      rewrite Qabs_pos by (unfold Qle; simpl; lia).
      pose proof (nearest_up_bounds (10 * Z.pos m) (2 ^ (- e)) Hpow) as Hn.
      unfold Qle, Qlt; simpl. rewrite !Pos.mul_1_l, !Z2Pos.id by exact Hpow.
      lia.
Qed.

(** [toFixed(1)] rounds the binary value of the number, not the decimal it
    was written as: 0.25 is exact and goes up to "0.3", 0.35 and 1.45 lie
    below the decimals that name them and go down to "0.3" and "1.4"; a
    negative number that rounds to zero keeps its sign. *)
Example toFixed1_rounds_the_binary_value :
  toFixed1 (lit 0.25) = Fixed false 3
  /\ toFixed1 (lit 0.35) = Fixed false 3
  /\ toFixed1 (lit 1.45) = Fixed false 14
  /\ toFixed1 (neg (lit 0.04)) = Fixed true 0
  /\ toFixed1 (of_int 5) = Fixed false 50.
Proof. vm_compute. repeat split; reflexivity. Qed.

(** On other counts than those of the literal table the exact quotient can
    lie half-way between two tenths, and the growth need not be the tenth
    away from zero: from 2000 to 2003 the exact growth is 0.15, the
    computed one lies just below it and gives 0.1. *)
Example growth_at_a_tie :
  let row n :=
    {| year := 0; Network_Server := n; Email := 0;
       Electronic_Medical_Record := 0; Paper_Films := 0; Other := 0;
       Desktop_Computer := 0; Total := n |} in
  (exactGrowth 2000 2003 == 0.15)%Q
  /\ round1 (exactGrowth 2000 2003) = 2
  /\ parseFloat (growthRate (row 2000) (row 2003)) = lit 0.1.
Proof. vm_compute. repeat split; reflexivity. Qed.

(** The rows [i] and [i + 1] of the literal table, one case per [i]. *)
Ltac literal_rows i Hprev Hitem :=
  unfold locationTrendsData in Hprev, Hitem;
  let rec go n i :=
    lazymatch n with
    | O => cbn in Hprev; discriminate
    | S ?n' =>
        let j := fresh "i" in
        destruct i as [|j];
        [cbn in Hprev, Hitem; try discriminate;
         injection Hprev as <-; injection Hitem as <-
        |go n' j]
    end in
  go 11%nat i.

(** The elements of a list given by its elements, one case per element. *)
Ltac list_cases H :=
  apply list_elem_of_In in H; cbn in H;
  repeat (destruct H as [H|H]; [symmetry in H|]); [..|contradiction].

(** C9: every row of the literal table but the first follows a row whose
    Network Server count is positive. So the callback, at every index but
    0, takes the branch that divides and not the fallback: [growthRate] is
    the text of [toFixed], the divisor is a positive number and the
    quotient, times 100, is finite. *)
Theorem previous_count_positive (i : nat) (prev item : counts) :
  locationTrendsData !! i = Some prev ->
  locationTrendsData !! S i = Some item ->
  0 < Network_Server prev
  /\ growthRate prev item = VText (toFixed1 (growthQuotient prev item))
  /\ lt zero (of_int (Network_Server prev)) = true
  /\ is_finite (of_int (Network_Server prev)) = true
  /\ is_finite (growthQuotient prev item) = true.
Proof.
  intros Hprev Hitem.
  literal_rows i Hprev Hitem; vm_compute; repeat split; reflexivity.
Qed.

(** The rows of 2015 and 2016. *)
Lemma previous_count_positive_2016 :
  exists prev item,
    locationTrendsData !! 0%nat = Some prev
    /\ locationTrendsData !! 1%nat = Some item
    /\ 0 < Network_Server prev
    /\ growthRate prev item = VText (toFixed1 (growthQuotient prev item))
    /\ lt zero (of_int (Network_Server prev)) = true
    /\ is_finite (of_int (Network_Server prev)) = true
    /\ is_finite (growthQuotient prev item) = true.
Proof.
  eexists _, _. split; [reflexivity|]. split; [reflexivity|].
  apply (previous_count_positive 0); reflexivity.
Defined.

Lemma growthRate_value (prev item : counts) :
  (0 < Network_Server prev ->
   parseFloat (growthRate prev item)
   = parseFloat (VText (toFixed1 (growthQuotient prev item))))
  /\ (Network_Server prev <= 0 -> parseFloat (growthRate prev item) = zero).
Proof.
  unfold growthRate. split; intros H.
  - apply Z.ltb_lt in H. rewrite H. reflexivity.
  - apply Z.ltb_ge in H. rewrite H. reflexivity.
Qed.

(** C2: a growth point for a year with a previous year.
    - For every table and every two rows that follow each other, with
      Network Server counts P and C: the [map] builds, at the index of the
      second row, a point with the year of that row whose growth is, when
      P > 0, what [parseFloat] reads from the text [toFixed(1)] gives for
      [(C - P) / P * 100], and 0 when P is not positive; the series is what
      the [filter] keeps of these points.
    - For the literal table, P is positive and that growth is the number
      whose decimal text is the exact [(C - P) / P * 100] rounded to one
      decimal place; the exact value is never half-way between two tenths,
      so that the rounding rule at a tie plays no part.
    - The point of 2016, with P = 11 and C = 65, has growth 490.9. *)
Theorem growth_point_formula :
  (forall (table : list counts) (i : nat) (prev item : counts),
      table !! i = Some prev -> table !! S i = Some item ->
      exists points p,
        Array_map growthCallback table = Some points
        /\ growthSeries table
           = Some (filter (λ item, gyear item < 2025) points)
        /\ points !! S i = Some p
        /\ gyear p = year item
        /\ (0 < Network_Server prev ->
            growth p = parseFloat (VText (toFixed1 (growthQuotient prev item))))
        /\ (Network_Server prev <= 0 -> growth p = zero))
  /\ (forall (i : nat) (prev item : counts) (points : list growthPoint)
        (p : growthPoint),
      locationTrendsData !! i = Some prev ->
      locationTrendsData !! S i = Some item ->
      networkServerGrowthData = Some points ->
      p ∈ points -> gyear p = year item ->
      let P := Network_Server prev in
      let C := Network_Server item in
      0 < P
      /\ growth p = tenths (round1 (exactGrowth P C))
      /\ Z.abs (2 * (10 * Qnum (exactGrowth P C))
                - 2 * Zpos (Qden (exactGrowth P C)) * round1 (exactGrowth P C))
         < Zpos (Qden (exactGrowth P C)))
  /\ (exists points prev item,
        networkServerGrowthData = Some points
        /\ locationTrendsData !! 0%nat = Some prev
        /\ locationTrendsData !! 1%nat = Some item
        /\ Network_Server prev = 11 /\ Network_Server item = 65
        /\ year item = 2016
        /\ round1 (exactGrowth 11 65) = 4909
        /\ {| gyear := 2016; growth := lit 490.9 |} ∈ points).
Proof.
  split; [|split].
  - intros table i prev item Hprev Hitem.
    exists (pointsAfter None table), (pointAfter (Some prev) item).
    split; [apply Array_map_growth|].
    split; [apply growthSeries_eq|].
    split; [apply pointsAfter_lookup; assumption|].
    split; [reflexivity|]. apply growthRate_value.
  - intros i prev item points p Hprev Hitem Hpoints Hp Hyear.
    vm_compute in Hpoints. injection Hpoints as <-.
    literal_rows i Hprev Hitem; list_cases Hp; subst p;
      try discriminate Hyear; clear Hyear;
      (split; [reflexivity|split; vm_compute; reflexivity]).
  - eexists _, _, _. split; [reflexivity|].
    do 6 (split; [reflexivity|]).
    vm_compute. apply list_elem_of_In. right. left. reflexivity.
Qed.

(** The point of 2016 in the series of the literal table. *)
Lemma growth_point_formula_2016 :
  exists p,
    p = {| gyear := 2016; growth := lit 490.9 |}
    /\ 0 < 11
    /\ growth p = tenths (round1 (exactGrowth 11 65))
    /\ Z.abs (2 * (10 * Qnum (exactGrowth 11 65))
              - 2 * Zpos (Qden (exactGrowth 11 65)) * round1 (exactGrowth 11 65))
       < Zpos (Qden (exactGrowth 11 65)).
Proof.
  eexists. split; [reflexivity|].
  destruct growth_point_formula as (_ & Hliteral & _).
  refine (Hliteral 0%nat _ _ _ {| gyear := 2016; growth := lit 490.9 |}
            eq_refl eq_refl eq_refl _ eq_refl).
  vm_compute. apply list_elem_of_In. right. left. reflexivity.
Defined.

(** ** The sort *)

Section ArraySortFacts.
Context {A : Type} (comparefn : A -> A -> number).

Lemma insert_Permutation (x : A) (l : list A) : insert comparefn x l ≡ₚ x :: l.
Proof.
  induction l as [|y l IH]; simpl; [reflexivity|].
  destruct (sorts_after comparefn x y); [|reflexivity].
  rewrite IH. apply Permutation_swap.
Qed.

Lemma Array_sort_Permutation (l : list A) : Array_sort comparefn l ≡ₚ l.
Proof.
  induction l as [|x l IH]; simpl; [reflexivity|].
  rewrite insert_Permutation, IH. reflexivity.
Qed.

Lemma consistentb_consistent (l : list A) :
  consistentb comparefn l = true -> consistent comparefn l.
Proof.
  unfold consistentb, consistent, may_precede. intros H.
  rewrite forallb_forall in H.
  split.
  - intros x y Hx Hy Hxy.
    apply list_elem_of_In in Hx, Hy.
    specialize (H x Hx). rewrite forallb_forall in H. specialize (H y Hy).
    apply andb_prop in H as [H _]. rewrite Hxy in H. simpl in H.
    destruct (sorts_after comparefn y x); [discriminate|reflexivity].
  - intros x y z Hx Hy Hz Hxy Hyz.
    apply list_elem_of_In in Hx, Hy, Hz.
    specialize (H x Hx). rewrite forallb_forall in H. specialize (H y Hy).
    apply andb_prop in H as [_ H].
    rewrite forallb_forall in H. specialize (H z Hz).
    rewrite Hxy, Hyz in H. simpl in H.
    destruct (sorts_after comparefn x z); [discriminate|reflexivity].
Qed.

Lemma insert_sorted (L : list A) (x : A) (l : list A) :
  consistent comparefn L -> x ∈ L -> l ⊆ L ->
  StronglySorted (may_precede comparefn) l ->
  StronglySorted (may_precede comparefn) (insert comparefn x l).
Proof.
  intros [Htotal Htrans] Hx Hl Hsorted.
  induction Hsorted as [|y l Hsorted IH Hy]; simpl.
  - repeat constructor.
  - assert (HyL : y ∈ L) by (apply Hl; left).
    assert (HlL : l ⊆ L) by (intros z Hz; apply Hl; right; exact Hz).
    destruct (sorts_after comparefn x y) eqn:Hxy.
    + constructor; [apply IH; exact HlL|].
      rewrite insert_Permutation. constructor; [|exact Hy].
      apply Htotal; assumption.
    + constructor; [constructor; assumption|].
      constructor; [exact Hxy|].
      rewrite Forall_forall in Hy |- *. intros z Hz.
      apply (Htrans x y z); auto.
Qed.

Lemma Array_sort_sorted_in (L l : list A) :
  consistent comparefn L -> l ⊆ L ->
  StronglySorted (may_precede comparefn) (Array_sort comparefn l).
Proof.
  intros HL. induction l as [|x l IH]; intros Hl; simpl; [constructor|].
  apply (insert_sorted L); auto.
  - apply Hl; left.
  - intros z Hz. apply Hl. right.
    rewrite <- (Array_sort_Permutation l). exact Hz.
  - apply IH. intros z Hz. apply Hl. right. exact Hz.
Qed.

Lemma Array_sort_sorted (l : list A) :
  consistent comparefn l ->
  StronglySorted (may_precede comparefn) (Array_sort comparefn l).
Proof. intros Hl. apply (Array_sort_sorted_in l); [exact Hl|done]. Qed.

(** Insertion leaves the elements tied with [k] in the order they had. *)
Lemma insert_tied (L : list A) (k x : A) (l : list A) :
  consistent comparefn L -> k ∈ L -> x ∈ L -> l ⊆ L ->
  filter (tied comparefn k) (insert comparefn x l) = filter (tied comparefn k) (x :: l).
Proof.
  intros [Htotal Htrans] Hk Hx.
  induction l as [|y l IH]; intros Hl; simpl; [reflexivity|].
  assert (HyL : y ∈ L) by (apply Hl; left).
  assert (HlL : l ⊆ L) by (intros z Hz; apply Hl; right; exact Hz).
  destruct (sorts_after comparefn x y) eqn:Hxy; [|reflexivity].
  rewrite (filter_cons _ y (insert comparefn x l)), IH by exact HlL.
  rewrite (filter_cons _ x (y :: l)), (filter_cons _ y l), (filter_cons _ x l).
  destruct (decide (tied comparefn k x)) as [[Hkx Hxk]|Hnx];
    destruct (decide (tied comparefn k y)) as [[Hky Hyk]|Hny]; try reflexivity.
  assert (Hfalse : may_precede comparefn x y) by (apply (Htrans x k y); assumption).
  unfold may_precede in Hfalse. congruence.
Qed.

Lemma Array_sort_stable_in (L : list A) (k : A) (l : list A) :
  consistent comparefn L -> k ∈ L -> l ⊆ L ->
  filter (tied comparefn k) (Array_sort comparefn l) = filter (tied comparefn k) l.
Proof.
  intros HL Hk. induction l as [|x l IH]; intros Hl; simpl; [reflexivity|].
  assert (HlL : l ⊆ L) by (intros z Hz; apply Hl; right; exact Hz).
  assert (HsL : Array_sort comparefn l ⊆ L)
    by (intros z Hz; apply HlL; rewrite <- (Array_sort_Permutation l); exact Hz).
  rewrite (insert_tied L) by (auto; apply Hl; left).
  rewrite !filter_cons, IH by exact HlL. reflexivity.
Qed.

Lemma Array_sort_stable (k : A) (l : list A) :
  consistent comparefn l -> k ∈ l ->
  filter (tied comparefn k) (Array_sort comparefn l) = filter (tied comparefn k) l.
Proof. intros Hl Hk. apply (Array_sort_stable_in l); [exact Hl|exact Hk|done]. Qed.

(** A sorted array is left as it is. *)
Lemma Array_sort_of_sorted (l : list A) :
  StronglySorted (may_precede comparefn) l -> Array_sort comparefn l = l.
Proof.
  induction 1 as [|x l Hsorted IH Hx]; simpl; [reflexivity|].
  rewrite IH. destruct Hx as [|y l Hxy _]; simpl; [reflexivity|].
  unfold may_precede in Hxy. rewrite Hxy. reflexivity.
Qed.

(** The result is the only one the language allows: an arrangement of the
    elements that is in the order of the comparator and keeps the elements
    it holds equal in the order they had is the sorted array. *)
Lemma sorted_stable_unique (L l1 l2 : list A) :
  consistent comparefn L -> l1 ⊆ L -> l1 ≡ₚ l2 ->
  StronglySorted (may_precede comparefn) l1 ->
  StronglySorted (may_precede comparefn) l2 ->
  (forall k, k ∈ L -> filter (tied comparefn k) l1 = filter (tied comparefn k) l2) ->
  l1 = l2.
Proof.
  intros [Htotal Htrans]. revert l2.
  induction l1 as [|x l1 IH]; intros l2 HL Hperm Hs1 Hs2 Hstable.
  - apply Permutation_nil in Hperm. congruence.
  - destruct l2 as [|y l2];
      [symmetry in Hperm; apply Permutation_nil in Hperm; discriminate|].
    assert (HxL : x ∈ L) by (apply HL; left).
    assert (Hxx : may_precede comparefn x x).
    { unfold may_precede. destruct (sorts_after comparefn x x) eqn:E; [|reflexivity].
      rewrite <- E. apply Htotal; assumption. }
    apply StronglySorted_inv in Hs1 as [Hs1 Hx1], Hs2 as [Hs2 Hy2].
    rewrite Forall_forall in Hx1, Hy2.
    assert (Hxy : x = y).
    { assert (Hy : y ∈ x :: l1) by (rewrite Hperm; left).
      assert (Hx : x ∈ y :: l2) by (rewrite <- Hperm; left).
      apply elem_of_cons in Hy as [Hy|Hy]; [congruence|].
      apply elem_of_cons in Hx as [Hx|Hx]; [congruence|].
      specialize (Hstable x HxL). rewrite !filter_cons in Hstable.
      destruct (decide (tied comparefn x x)) as [_|Hn]; [|destruct Hn; split; assumption].
      destruct (decide (tied comparefn x y)) as [_|Hn];
        [congruence|destruct Hn; split; auto]. }
    subst y. f_equal.
    apply IH; try assumption.
    + intros z Hz. apply HL. right. exact Hz.
    + apply (Permutation_cons_inv Hperm).
    + intros k Hk. specialize (Hstable k Hk). rewrite !filter_cons in Hstable.
      destruct (decide (tied comparefn k x)); congruence.
Qed.

Lemma Array_sort_unique (l l' : list A) :
  consistent comparefn l -> l' ≡ₚ l ->
  StronglySorted (may_precede comparefn) l' ->
  (forall k, k ∈ l -> filter (tied comparefn k) l' = filter (tied comparefn k) l) ->
  l' = Array_sort comparefn l.
Proof.
  intros Hl Hperm Hsorted Hstable.
  apply (sorted_stable_unique l); try assumption.
  - intros z Hz. rewrite <- Hperm. exact Hz.
  - rewrite Hperm, Array_sort_Permutation. reflexivity.
  - apply Array_sort_sorted, Hl.
  - intros k Hk. rewrite Hstable, Array_sort_stable by assumption. reflexivity.
Qed.

Lemma Array_sort_idempotent (l : list A) :
  consistent comparefn l -> Array_sort comparefn (Array_sort comparefn l) = Array_sort comparefn l.
Proof. intros Hl. apply Array_sort_of_sorted, Array_sort_sorted, Hl. Qed.

End ArraySortFacts.

(** ** The ranking *)

Lemma literal_rates_consistent :
  consistentb byCagrDescending locationGrowthRatesLiteral = true.
Proof. vm_compute. reflexivity. Qed.

(** Three entries of which the first and the last have the same value: the
    greater one comes first, the other two keep their order. *)
Example ranking_with_a_tie :
  Array_sort byCagrDescending
    [ {| name := "A"; cagr := 1.5 |}; {| name := "B"; cagr := 2.5 |};
      {| name := "C"; cagr := 1.5 |} ]
  = [ {| name := "B"; cagr := 2.5 |}; {| name := "A"; cagr := 1.5 |};
      {| name := "C"; cagr := 1.5 |} ].
Proof. vm_compute. reflexivity. Qed.

(** C4: the ranking is in descending order of CAGR, ties in the order of
    the literal.
    - For every array of entries on which the comparator is consistent, the
      sorted array is in the order of the comparator (no element is to
      stand after a later one), and the entries the comparator holds equal
      to a given entry are in the order they had in the array.
    - The comparator is consistent on the literal; the ranking of the
      literal is in descending order of the CAGR values as written; its
      first element is Network Server with 45.92 and its last Paper/Films
      with -3.80. *)
Theorem cagr_ranking_sorted :
  (forall entries : list growthRateEntry,
      consistentb byCagrDescending entries = true ->
      StronglySorted (may_precede byCagrDescending)
        (Array_sort byCagrDescending entries)
      /\ forall k, k ∈ entries ->
           filter (tied byCagrDescending k) (Array_sort byCagrDescending entries)
           = filter (tied byCagrDescending k) entries)
  /\ consistentb byCagrDescending locationGrowthRatesLiteral = true
  /\ StronglySorted cagrDescending locationGrowthRates
  /\ head locationGrowthRates
     = Some {| name := "Network Server"; cagr := 45.92 |}
  /\ last locationGrowthRates
     = Some {| name := "Paper/Films"; cagr := -3.80 |}.
Proof.
  split; [|split; [|split; [|split]]].
  - intros entries Hcons. apply consistentb_consistent in Hcons. split.
    + apply Array_sort_sorted, Hcons.
    + intros k Hk. apply Array_sort_stable; assumption.
  - exact literal_rates_consistent.
  - assert (Hsorted : locationGrowthRates
      = [ {| name := "Network Server"; cagr := 45.92 |};
          {| name := "Email"; cagr := 27.55 |};
          {| name := "Other"; cagr := 9.87 |};
          {| name := "Electronic Medical Record"; cagr := 7.32 |};
          {| name := "Desktop Computer"; cagr := -3.15 |};
          {| name := "Paper/Films"; cagr := -3.80 |} ])
      by (vm_compute; reflexivity).
    rewrite Hsorted. unfold cagrDescending.
    repeat (constructor;
            [|repeat (constructor; [apply Qle_bool_imp_le; reflexivity|]);
              constructor]).
    constructor.
  - vm_compute. reflexivity.
  - vm_compute. reflexivity.
Qed.

(** The ranking of the literal. *)
Lemma cagr_ranking_sorted_literal :
  StronglySorted (may_precede byCagrDescending) locationGrowthRates
  /\ forall k, k ∈ locationGrowthRatesLiteral ->
       filter (tied byCagrDescending k) locationGrowthRates
       = filter (tied byCagrDescending k) locationGrowthRatesLiteral.
Proof.
  apply (proj1 cagr_ranking_sorted locationGrowthRatesLiteral).
  vm_compute. reflexivity.
Defined.

(** C10: the ranking is a permutation of the literal entries. Sorting
    permutes every array, whatever the comparator answers; the ranking of
    the literal has 6 elements, the six category names occur in it once
    each, and its entries are the entries of the literal: each name with
    the value it is written with. *)
Theorem cagr_ranking_permutation :
  (forall entries : list growthRateEntry,
      Array_sort byCagrDescending entries ≡ₚ entries)
  /\ locationGrowthRates ≡ₚ locationGrowthRatesLiteral
  /\ length locationGrowthRates = 6%nat
  /\ map name locationGrowthRates ≡ₚ categories
  /\ NoDup (map name locationGrowthRates)
  /\ forall entry,
       entry ∈ locationGrowthRates <-> entry ∈ locationGrowthRatesLiteral.
Proof.
  assert (Hperm : locationGrowthRates ≡ₚ locationGrowthRatesLiteral)
    by apply Array_sort_Permutation.
  split; [intros entries; apply Array_sort_Permutation|].
  split; [exact Hperm|].
  split; [rewrite Hperm; reflexivity|].
  split; [|split].
  - rewrite Hperm. simpl. unfold categories.
    do 3 apply perm_skip. apply perm_swap.
  - rewrite Hperm. simpl. apply NoDup_ListNoDup.
    repeat (constructor; [simpl; intuition discriminate|]). constructor.
  - intros entry. rewrite Hperm. reflexivity.
Qed.

(** ** Evaluating the derivations again *)

Lemma BreachLocationTrends_arrays (chartType : string) :
  exists r,
    BreachLocationTrends chartType = Some r
    /\ Some (growthData r) = networkServerGrowthData
    /\ ranking r = locationGrowthRates.
Proof.
  unfold BreachLocationTrends, networkServerGrowthData.
  rewrite growthSeries_eq. eexists. repeat split; reflexivity.
Qed.

(** C8: the two derivations give the same result when evaluated again.
    - The growth series reads its table and leaves it as it was, and never
      raises: a second evaluation sees the same arrays and returns the same
      series.
    - The ranking sorts its array in place; where the comparator is
      consistent, a second evaluation finds the array sorted, leaves it so
      and returns the same ranking.
    - On the literal arrays they give [networkServerGrowthData] and
      [locationGrowthRates]; every evaluation of the component, whatever
      the selector holds, builds these same two arrays from the
      literals. *)
Theorem derived_tables_repeatable :
  (forall (s s1 s2 : arrays) (r1 r2 : option (list growthPoint)),
      deriveGrowth s = (r1, s1) -> deriveGrowth s1 = (r2, s2) ->
      r1 = r2 /\ s1 = s /\ s2 = s /\ is_Some r1)
  /\ (forall (s s1 s2 : arrays) (r1 r2 : list growthRateEntry),
      consistentb byCagrDescending (rates s) = true ->
      deriveRanking s = (r1, s1) -> deriveRanking s1 = (r2, s2) ->
      r1 = r2 /\ s2 = s1)
  /\ deriveGrowth literalArrays = (networkServerGrowthData, literalArrays)
  /\ fst (deriveRanking literalArrays) = locationGrowthRates
  /\ (forall chartType1 chartType2 : string,
      exists r1 r2,
        BreachLocationTrends chartType1 = Some r1
        /\ BreachLocationTrends chartType2 = Some r2
        /\ growthData r1 = growthData r2
        /\ ranking r1 = ranking r2).
Proof.
  split; [|split; [|split; [|split]]].
  - intros s s1 s2 r1 r2 H1 H2. unfold deriveGrowth in *.
    injection H1 as <- <-. injection H2 as <- <-.
    rewrite growthSeries_eq. eauto.
  - intros s s1 s2 r1 r2 Hcons H1 H2. unfold deriveRanking in *.
    injection H1 as <- <-. injection H2 as <- <-. simpl.
    apply consistentb_consistent in Hcons.
    rewrite Array_sort_idempotent by exact Hcons. split; reflexivity.
  - reflexivity.
  - reflexivity.
  - intros chartType1 chartType2.
    destruct (BreachLocationTrends_arrays chartType1) as (r1 & H1 & Hg1 & Hr1).
    destruct (BreachLocationTrends_arrays chartType2) as (r2 & H2 & Hg2 & Hr2).
    exists r1, r2. repeat split; try assumption; congruence.
Qed.

(** The ranking evaluated twice on the literal arrays. *)
Lemma derived_tables_repeatable_literal :
  exists s1 s2,
    deriveRanking literalArrays = (locationGrowthRates, s1)
    /\ deriveRanking s1 = (locationGrowthRates, s2)
    /\ s2 = s1.
Proof.
  eexists _, _. split; [reflexivity|]. split; [reflexivity|].
  destruct derived_tables_repeatable as (_ & Hranking & _).
  refine (proj2 (Hranking literalArrays _ _ _ _ _ eq_refl eq_refl)).
  vm_compute. reflexivity.
Defined.

(** ** The selector *)


Lemma not_an_option (chartType option : string) :
  chartType ∉ chartTypeOptions -> option ∈ chartTypeOptions ->
  String.eqb chartType option = false.
Proof.
  intros Hnot Hin. apply String.eqb_neq. intros ->. contradiction.
Qed.

(** C5, as the claim states it, fails: for a value that is none of the five,
    here "pie", the chart area is empty, and not the chart of the
    [absolute] view. *)
Lemma unknown_selector_is_not_absolute :
("pie" ∉ chartTypeOptions)
  /\ chartsOf "pie" = []
  /\ chartsOf "absolute" = [absoluteChart]
  /\ ~ (forall chartType : string,
          chartType ∉ chartTypeOptions ->
          BreachLocationTrends chartType = BreachLocationTrends "absolute").
Proof.
  assert (Hpie : "pie" ∉ chartTypeOptions).
  { intros H. apply list_elem_of_In in H. simpl in H.
    repeat (destruct H as [H|H]; [discriminate H|]). exact H. }
  split; [exact Hpie|].
  split; [vm_compute; reflexivity|].
  split; [vm_compute; reflexivity|].
  intros Hclaim. specialize (Hclaim "pie" Hpie).
  assert (Hcharts : chartsOf "pie" = chartsOf "absolute")
    by (unfold chartsOf; rewrite Hclaim; reflexivity).
  vm_compute in Hcharts. discriminate Hcharts.
Qed.

(** C5 (amended): for every value of the selector that is none of the five
    identifiers the component is evaluated without error and its chart area
    holds no chart. *)
Theorem unknown_selector_renders_nothing (chartType : string) :
  chartType ∉ chartTypeOptions ->
  exists r, BreachLocationTrends chartType = Some r /\ chartArea r = [].
Proof.
  intros Hnot.
  unfold BreachLocationTrends. rewrite growthSeries_eq.
  eexists. split; [reflexivity|]. cbv beta iota delta [chartArea].
  rewrite !(not_an_option chartType) by
    (assumption || (apply list_elem_of_In; simpl; tauto)).
  reflexivity.
Qed.

(** The value "pie". *)
Lemma unknown_selector_renders_nothing_pie :
  exists r, BreachLocationTrends "pie" = Some r /\ chartArea r = [].
Proof.
  apply (unknown_selector_renders_nothing "pie").
  intros H. apply list_elem_of_In in H. simpl in H.
  repeat (destruct H as [H|H]; [discriminate H|]). exact H.
Defined.

(** ** The colours *)

(** The cases of a membership in a list that is computed first. *)
Ltac computed_cases H :=
  apply list_elem_of_In in H; vm_compute in H;
  repeat (destruct H as [H|H]; [symmetry in H|]); [..|contradiction].

(** C6, as the claim states it, fails at the comparison chart: the bar of
    Paper/Films is drawn there with the fill of the enclosing bar and the
    fill its negative CAGR selects, and neither is the colour [COLORS]
    gives Paper/Films. *)
Lemma comparison_chart_not_category_coloured :
  chartsOf "growthComparison" = [growthComparisonChart locationGrowthRates]
  /\ categoryColours (growthComparisonChart locationGrowthRates) "Paper/Films"
     = ["#8884d8"; "#ff7373"]
  /\ COLORS !! "Paper/Films" = Some "#ff8042"
  /\ ~ (forall (view : string) (c : chart) (category colour : string),
          view ∈ chartTypeOptions -> c ∈ chartsOf view ->
          category ∈ categories -> colour ∈ categoryColours c category ->
          COLORS !! category = Some colour).
Proof.
  split; [vm_compute; reflexivity|].
  split; [vm_compute; reflexivity|].
  split; [vm_compute; reflexivity|].
  intros Hclaim.
  specialize (Hclaim "growthComparison"
                (growthComparisonChart locationGrowthRates)
                "Paper/Films" "#ff7373").
  assert (Hcolour : COLORS !! "Paper/Films" = Some "#ff7373").
  { apply Hclaim.
    - apply list_elem_of_In. simpl. tauto.
    - apply list_elem_of_In. vm_compute. left. reflexivity.
    - apply list_elem_of_In. simpl. tauto.
    - apply list_elem_of_In. vm_compute. right. left. reflexivity. }
  vm_compute in Hcolour. discriminate Hcolour.
Qed.

(** C6 (amended): [COLORS] gives each of the six categories a colour, and
    the six colours differ. In the views [absolute], [percentage] and
    [stacked] every category is drawn, and in these and in
    [networkServerGrowth] every colour a category is drawn with is the
    colour [COLORS] gives it. In the comparison chart the bars are not
    coloured by category: the bar of an entry of the ranking has the fill
    "#8884d8" of the enclosing bar and a fill of its own by the sign of its
    CAGR, "#82ca9d" when it is not below 0 and "#ff7373" otherwise. *)
Theorem category_colours_consistent :
  map (fun category => COLORS !! category) categories
  = [Some "#8884d8"; Some "#82ca9d"; Some "#ffc658"; Some "#ff8042";
     Some "#a4de6c"; Some "#d0ed57"]
  /\ NoDup (map (fun category => COLORS !! category) categories)
  /\ (forall (view : string) (c : chart) (category colour : string),
        view ∈ ["absolute"; "percentage"; "stacked"; "networkServerGrowth"] ->
        c ∈ chartsOf view ->
        category ∈ categories -> colour ∈ categoryColours c category ->
        COLORS !! category = Some colour)
  /\ (forall (view : string) (c : chart) (category : string),
        view ∈ ["absolute"; "percentage"; "stacked"] ->
        c ∈ chartsOf view ->
        category ∈ categories -> categoryColours c category <> [])
  /\ (forall entry : growthRateEntry,
        entry ∈ locationGrowthRates ->
        categoryColours (growthComparisonChart locationGrowthRates) (name entry)
        = ["#8884d8"; signFill entry]
        /\ signFill entry
           = if Qle_bool 0 (cagr entry) then "#82ca9d" else "#ff7373").
Proof.
  split; [vm_compute; reflexivity|].
  split; [|split; [|split]].
  - apply NoDup_ListNoDup. vm_compute.
    repeat (constructor; [simpl; intuition discriminate|]). constructor.
  - intros view c category colour Hview Hc Hcategory Hcolour.
    computed_cases Hview; subst view;
      computed_cases Hc; subst c;
      computed_cases Hcategory; subst category;
      computed_cases Hcolour; subst colour; vm_compute; reflexivity.
  - intros view c category Hview Hc Hcategory.
    computed_cases Hview; subst view;
      computed_cases Hc; subst c;
      computed_cases Hcategory; subst category; vm_compute; discriminate.
  - intros entry Hentry.
    computed_cases Hentry; subst entry; vm_compute; split; reflexivity.
Qed.

(** Email in the stacked view. *)
Lemma category_colours_consistent_email :
  COLORS !! "Email" = Some "#82ca9d".
Proof.
  destruct category_colours_consistent as (_ & _ & Hcolour & _).
  apply (Hcolour "stacked" stackedChart "Email" "#82ca9d");
    apply list_elem_of_In; vm_compute; tauto.
Defined.

(** ** The tooltip *)

Lemma append_cons (a : Ascii.ascii) (s t : string) :
  String a s +:+ t = String a (s +:+ t).
Proof. reflexivity. Qed.

Lemma prefix_append (p s : string) :
  String.prefix p s = true <-> exists post, s = p +:+ post.
Proof.
  revert s. induction p as [|a p IH]; intros s.
  - split; [intros _; exists s; reflexivity|intros _; destruct s; reflexivity].
  - destruct s as [|b s]; simpl.
    + split; [discriminate|intros [post H]; discriminate H].
    + destruct (Ascii.ascii_dec a b) as [->|Hne].
      * rewrite IH.
        split; intros [post H]; exists post; rewrite append_cons in *; congruence.
      * split; [discriminate|].
        intros [post H]. rewrite append_cons in H. congruence.
Qed.

Lemma includes_spec (s sub : string) :
  includes s sub = true <-> exists pre post, s = pre +:+ sub +:+ post.
Proof.
  split.
  - induction s as [|a s IH]; cbn [includes]; intros H.
    + rewrite orb_false_r in H. apply prefix_append in H as [post H].
      exists "", post. exact H.
    + apply orb_prop in H as [H|H].
      * apply prefix_append in H as [post H]. exists "", post. exact H.
      * destruct (IH H) as (pre & post & ->).
        exists (String a pre), post. reflexivity.
  - intros (pre & post & ->). induction pre as [|a pre IH].
    + assert (H : String.prefix sub (sub +:+ post) = true)
        by (apply prefix_append; exists post; reflexivity).
      change ("" +:+ sub +:+ post) with (sub +:+ post).
      destruct (sub +:+ post); cbn [includes]; rewrite H; reflexivity.
    + rewrite append_cons. cbn [includes]. rewrite IH. apply orb_true_r.
Qed.

(** X3: a value is followed by a percent sign exactly when the name of its
    entry has a percent sign somewhere in it or is "growth"; otherwise it
    is followed by nothing. *)
Theorem valueSuffix_spec (entryName : string) :
  (valueSuffix entryName = "%"
   <-> (exists pre post, entryName = pre +:+ "%" +:+ post)
       \/ entryName = "growth")
  /\ (valueSuffix entryName = "%" \/ valueSuffix entryName = "").
Proof.
  unfold valueSuffix.
  destruct (includes entryName "%") eqn:Hinc.
  - split; [|left; reflexivity].
    split; [intros _; left; apply includes_spec, Hinc|reflexivity].
  - destruct (String.eqb_spec entryName "growth") as [->|Hne].
    + split; [|left; reflexivity]. split; [right|]; reflexivity.
    + split; [|right; reflexivity]. split; [discriminate|].
      intros [H|H]; [|contradiction].
      apply includes_spec in H. congruence.
Qed.

Section CustomTooltipFacts.
Context {V L : Type} (textOfValue : V -> string) (textOfLabel : L -> string).

Lemma CustomTooltip_shown (active : bool)
    (payload : option (list (@payloadEntry V))) (label : L) (box : tooltipBox) :
  CustomTooltip textOfValue textOfLabel active payload label = Some box ->
  exists entries,
    payload = Some entries /\ active = true /\ entries <> []
    /\ boxHeading box = "Year: " +:+ textOfLabel label
    /\ boxLines box
       = imap (fun index entry =>
                 {| lineKey := "item-" +:+ pretty index;
                    lineColor := entryColor entry;
                    lineText :=
                      entryName entry +:+ ": "
                      +:+ textOfValue (entryValue entry)
                      +:+ valueSuffix (entryName entry) |}) entries.
Proof.
  unfold CustomTooltip. destruct payload as [entries|]; [|discriminate].
  destruct active; [|discriminate].
  destruct entries as [|entry entries]; [discriminate|].
  intros [= <-]. exists (entry :: entries). repeat split. discriminate.
Qed.

(** X1: the tooltip shows nothing exactly when it is not active or its
    payload is missing or empty. When it shows a box, the payload has
    entries, the heading is "Year: " with the label, and the box has one
    line per entry, in the order of the payload and each in the colour of
    its entry. *)
Theorem tooltip_shown_iff (active : bool)
    (payload : option (list (@payloadEntry V))) (label : L) :
  (CustomTooltip textOfValue textOfLabel active payload label = None
   <-> active = false \/ payload = None \/ payload = Some [])
  /\ forall box,
       CustomTooltip textOfValue textOfLabel active payload label = Some box ->
       exists entries,
         payload = Some entries /\ entries <> []
         /\ boxHeading box = "Year: " +:+ textOfLabel label
         /\ length (boxLines box) = length entries
         /\ map lineColor (boxLines box) = map entryColor entries.
Proof.
  split.
  - unfold CustomTooltip.
    destruct payload as [[|entry entries]|], active; simpl;
      intuition (discriminate || congruence).
  - intros box Hbox.
    apply CustomTooltip_shown in Hbox
      as (entries & -> & _ & Hne & Hheading & Hlines).
    exists entries. rewrite Hlines, length_imap.
    repeat split; try assumption.
    change (map lineColor ?l) with (lineColor <$> l).
    rewrite fmap_imap. apply imap_const.
Qed.

(** X2: the lines of a tooltip have keys that differ from one another,
    whatever the payload. *)
Theorem tooltip_keys_distinct (active : bool)
    (payload : option (list (@payloadEntry V))) (label : L) (box : tooltipBox) :
  CustomTooltip textOfValue textOfLabel active payload label = Some box ->
  NoDup (map lineKey (boxLines box)).
Proof.
  intros Hbox.
  apply CustomTooltip_shown in Hbox as (entries & _ & _ & _ & _ & ->).
  change (map lineKey ?l) with (lineKey <$> l).
  rewrite fmap_imap.
  rewrite (imap_ext _ (fun j _ => "item-" +:+ pretty j)) by reflexivity.
  rewrite imap_seq_0.
  apply NoDup_fmap_2; [|apply NoDup_seq].
  intros i j Hij. apply String.app_inj in Hij.
  apply (inj pretty) in Hij. exact Hij.
Qed.

End CustomTooltipFacts.

(** A payload of two entries with the same name and colour. *)
Lemma tooltip_keys_distinct_pair :
  let entry :=
    {| entryName := "Email"; entryValue := 15; entryColor := "#82ca9d" |} in
  exists box,
    CustomTooltip pretty pretty true (Some [entry; entry]) 2015 = Some box
    /\ NoDup (map lineKey (boxLines box)).
Proof.
  intros entry. eexists. split; [reflexivity|].
  exact (tooltip_keys_distinct pretty pretty true (Some [entry; entry]) 2015
           _ eq_refl).
Defined.

(** A box for one entry of the percentage chart. *)
Lemma tooltip_shown_iff_percentage :
  let entry :=
    {| entryName := "Email (%)"; entryValue := 23; entryColor := "#82ca9d" |} in
  exists box entries,
    CustomTooltip pretty pretty true (Some [entry]) 2015 = Some box
    /\ Some [entry] = Some entries /\ entries <> []
    /\ boxHeading box = "Year: " +:+ pretty 2015
    /\ length (boxLines box) = length entries
    /\ map lineColor (boxLines box) = map entryColor entries.
Proof.
  intros entry. eexists.
  destruct (proj2 (tooltip_shown_iff pretty pretty true (Some [entry]) 2015)
              _ eq_refl) as (entries & H).
  exists entries. split; [reflexivity|exact H].
Defined.

(** ** The chart area *)

Lemma chartsOf_eq (chartType : string) :
  chartsOf chartType
  = when (String.eqb chartType "absolute") absoluteChart
    ++ when (String.eqb chartType "percentage") percentageChart
    ++ when (String.eqb chartType "stacked") stackedChart
    ++ when (String.eqb chartType "networkServerGrowth")
         (networkServerGrowthChart
            (filter (λ item, gyear item < 2025)
               (pointsAfter None locationTrendsData)))
    ++ when (String.eqb chartType "growthComparison")
         (growthComparisonChart locationGrowthRates).
Proof.
  unfold chartsOf, BreachLocationTrends. rewrite growthSeries_eq. reflexivity.
Qed.

(** The cases of the value of the selector: each of the five identifiers,
    and a value that is none of them. *)
Ltac selector_cases chartType :=
  rewrite (chartsOf_eq chartType) in *;
  repeat match goal with
         | H : context [String.eqb ?a ?b] |- _ =>
             destruct (String.eqb_spec a b); try discriminate; subst
         | |- context [String.eqb ?a ?b] =>
             destruct (String.eqb_spec a b); try discriminate; subst
         end;
  cbv beta iota delta [when app] in *.

Lemma option_cases (chartType : string) :
  chartType ∈ chartTypeOptions <->
  chartType = "absolute" \/ chartType = "percentage" \/ chartType = "stacked"
  \/ chartType = "networkServerGrowth" \/ chartType = "growthComparison".
Proof.
  unfold chartTypeOptions. rewrite !elem_of_cons, elem_of_nil. tauto.
Qed.

Lemma chartsOf_option (chartType : string) :
  chartType ∈ chartTypeOptions -> exists c, chartsOf chartType = [c].
Proof.
  rewrite option_cases. intros H.
  selector_cases chartType; eauto; intuition congruence.
Qed.

Lemma chartsOf_not_option (chartType : string) :
  chartType ∉ chartTypeOptions -> chartsOf chartType = [].
Proof.
  rewrite option_cases. intros Hnot.
  selector_cases chartType; try reflexivity; exfalso; apply Hnot; tauto.
Qed.

(** X5: whatever the selector holds, the chart area has at most one chart;
    it has one exactly when the value is one of the five identifiers and
    none otherwise; and two different identifiers never show the same
    chart. *)
Theorem chart_area_one_chart :
  (forall chartType : string,
      (length (chartsOf chartType) <= 1)%nat
      /\ (chartType ∈ chartTypeOptions <-> exists c, chartsOf chartType = [c])
      /\ (chartType ∉ chartTypeOptions <-> chartsOf chartType = []))
  /\ (forall chartType1 chartType2 : string,
        chartType1 ∈ chartTypeOptions ->
        chartsOf chartType1 = chartsOf chartType2 -> chartType1 = chartType2).
Proof.
  split.
  - intros chartType.
    destruct (decide (chartType ∈ chartTypeOptions)) as [Hin|Hnot].
    + destruct (chartsOf_option chartType Hin) as [c Hc]. rewrite Hc.
      split; [cbn [length]; lia|].
      split; [split; eauto|]. split; [contradiction|discriminate].
    + rewrite (chartsOf_not_option chartType Hnot).
      split; [cbn [length]; lia|].
      split; [split; [contradiction|intros [c Hc]; discriminate Hc]|].
      split; auto.
  - intros chartType1 chartType2 Hin Hcharts.
    apply option_cases in Hin.
    assert (Hheading : map heading (chartsOf chartType1)
                       = map heading (chartsOf chartType2)) by congruence.
    clear Hcharts.
    selector_cases chartType1; try (exfalso; intuition congruence);
      selector_cases chartType2; try reflexivity; discriminate Hheading.
Qed.

(** The value "stacked" and a value that is no identifier. *)
Lemma chart_area_one_chart_stacked :
  "stacked" <> "Stacked" /\ chartsOf "stacked" <> chartsOf "Stacked".
Proof.
  split; [discriminate|]. intros Hcharts.
  assert (Hin : "stacked" ∈ chartTypeOptions)
    by (apply option_cases; tauto).
  discriminate (proj2 chart_area_one_chart "stacked" "Stacked" Hin Hcharts).
Defined.



(** ** The keys of the charts *)

Lemma countsObject_keys (rows : list counts) (row : counts) (key : string) :
  is_Some (countsObject row !! key) <-> key ∈ rowKeys (CountsData rows).
Proof.
  unfold countsObject, rowKeys. cbn [list_to_map foldr curry fst snd].
  rewrite !lookup_insert_is_Some', lookup_empty, !elem_of_cons, elem_of_nil.
  pose proof (@is_Some_None Z). intuition congruence.
Qed.

Lemma percentagesObject_keys (rows : list percentages) (row : percentages)
    (key : string) :
  key = "year" \/ is_Some (percentagesObject row !! key)
  <-> key ∈ rowKeys (PercentageData rows).
Proof.
  unfold percentagesObject, rowKeys. cbn [list_to_map foldr curry fst snd].
  rewrite !lookup_insert_is_Some', lookup_empty, !elem_of_cons, elem_of_nil.
  pose proof (@is_Some_None Q). intuition congruence.
Qed.

(** X7: every chart the chart area can hold has at least one series, and
    every key it reads its rows with (the keys of its axes, of its series
    and of the bars nested in them) is a key of the rows of the array bound
    to it. The horizontal axis is keyed by "year", except in the comparison
    chart, whose vertical axis is keyed by "name". *)
Theorem chart_keys_are_row_keys (chartType : string) (c : chart) :
  c ∈ chartsOf chartType ->
  seriesList c <> []
  /\ (forall key, key ∈ chartKeys c -> key ∈ rowKeys (data c))
  /\ (if String.eqb chartType "growthComparison"
      then xAxisKey c = None /\ yAxisKey c = Some "name"
      else xAxisKey c = Some "year" /\ yAxisKey c = None).
Proof.
  intros Hc.
  selector_cases chartType;
    try (apply elem_of_nil in Hc; contradiction);
    apply list_elem_of_singleton in Hc; subst c;
    (split; [discriminate|]); (split; [|split; reflexivity]);
    intros key Hkey; computed_cases Hkey; subst key;
    apply list_elem_of_In; vm_compute; tauto.
Qed.

(** The percentage chart. *)
Lemma chart_keys_are_row_keys_percentage :
  seriesList percentageChart <> []
  /\ (forall key, key ∈ chartKeys percentageChart ->
                  key ∈ rowKeys (data percentageChart))
  /\ xAxisKey percentageChart = Some "year" /\ yAxisKey percentageChart = None.
Proof.
  apply (chart_keys_are_row_keys "percentage" percentageChart).
  apply list_elem_of_In. vm_compute. left. reflexivity.
Defined.

(** X4: in the charts that use the tooltip, the key of a series decides the
    sign after its values: the keys of the series of the views [absolute]
    and [stacked] give none, those of [percentage] and the key of the bar
    of [networkServerGrowth] give a percent sign, as does the name that
    bar is given. *)
Theorem tooltip_suffix_by_chart (chartType : string) (c : chart) (s : series) :
  c ∈ chartsOf chartType -> s ∈ seriesList c ->
  (chartType = "absolute" \/ chartType = "stacked" ->
   valueSuffix (dataKey s) = "")
  /\ (chartType = "percentage" \/ chartType = "networkServerGrowth" ->
      valueSuffix (dataKey s) = "%")
  /\ valueSuffix "Annual Growth Rate (%)" = "%".
Proof.
  intros Hc Hs.
  selector_cases chartType;
    try (apply elem_of_nil in Hc; contradiction);
    apply list_elem_of_singleton in Hc; subst c;
    computed_cases Hs; subst s;
    (split; [|split; [|reflexivity]]); intros [H|H];
    first [discriminate H | reflexivity].
Qed.

(** The line of Email in the percentage chart. *)
Lemma tooltip_suffix_by_chart_email :
  valueSuffix "Email (%)" = "%".
Proof.
  refine (proj1 (proj2 (tooltip_suffix_by_chart "percentage" percentageChart
                          (Line "Email (%)" (COLORS !! "Email")) _ _))
            (or_introl eq_refl));
    apply list_elem_of_In; vm_compute; tauto.
Defined.

(** ** The tables against each other *)

(** The rows [i] of the counts table and of the percentage table, one case
    per [i]. *)
Ltac paired_rows i Hcounts Hpercentages :=
  unfold locationTrendsData in Hcounts;
  unfold percentageDistributionData in Hpercentages;
  let rec go n i :=
    lazymatch n with
    | O => cbn in Hcounts; discriminate
    | S ?n' =>
        let j := fresh "i" in
        destruct i as [|j];
        [cbn in Hcounts, Hpercentages;
         injection Hcounts as <-; injection Hpercentages as <-
        |go n' j]
    end in
  go 11%nat i.

(** X8: the percentage table agrees with the counts table. The two have a
    row for the same years in the same order, and every percentage is the
    share of the count of its category in the Total of the year, rounded to
    one decimal place; no share lies half-way between two tenths. *)
Theorem percentages_are_rounded_shares :
  map pyear percentageDistributionData = map year locationTrendsData
  /\ forall (i : nat) (crow : counts) (prow : percentages) (category : string),
       locationTrendsData !! i = Some crow ->
       percentageDistributionData !! i = Some prow ->
       category ∈ categories ->
       exists (n : Z) (p : Q),
         countsObject crow !! category = Some n
         /\ percentagesObject prow !! (category +:+ " (%)") = Some p
         /\ (p == inject_Z (round1 (share n (Total crow))) / 10)%Q
         /\ Z.abs (2 * (10 * Qnum (share n (Total crow)))
                   - 2 * Zpos (Qden (share n (Total crow)))
                     * round1 (share n (Total crow)))
            < Zpos (Qden (share n (Total crow))).
Proof.
  split; [reflexivity|].
  intros i crow prow category Hcounts Hpercentages Hcategory.
  paired_rows i Hcounts Hpercentages;
    computed_cases Hcategory; subst category;
    eexists _, _;
    (split; [vm_compute; reflexivity|]);
    (split; [vm_compute; reflexivity|]);
    split; vm_compute; reflexivity.
Qed.

(** Email in 2019: 149 of 343 is 43.4 percent. *)
Lemma percentages_are_rounded_shares_email_2019 :
  exists (crow : counts) (prow : percentages) (n : Z) (p : Q),
    locationTrendsData !! 4%nat = Some crow
    /\ percentageDistributionData !! 4%nat = Some prow
    /\ countsObject crow !! "Email" = Some n
    /\ percentagesObject prow !! "Email (%)" = Some p
    /\ n = 149 /\ Total crow = 343 /\ (p == 43.4)%Q
    /\ (p == inject_Z (round1 (share n (Total crow))) / 10)%Q.
Proof.
  destruct (proj2 percentages_are_rounded_shares 4%nat _ _ "Email"
              eq_refl eq_refl) as (n & p & Hn & Hp & Hshare & _).
  { apply list_elem_of_In. vm_compute. tauto. }
  eexists _, _, n, p. split; [reflexivity|]. split; [reflexivity|].
  split; [exact Hn|]. split; [exact Hp|].
  vm_compute in Hn, Hp. injection Hn as <-. injection Hp as <-.
  repeat split; reflexivity || exact Hshare.
Defined.

(** X9: the CAGR literals agree with the counts table. For every entry of
    the literal, its rate is the compound annual growth rate that takes the
    count of its category in the first row, of 2015, to its count in the
    row of 2024, over the 9 years between them, to the two decimals the
    rate is written with. *)
Theorem cagr_literals_match_counts (entry : growthRateEntry) :
  entry ∈ locationGrowthRatesLiteral ->
  exists (first last : counts) (n m : Z),
    locationTrendsData !! 0%nat = Some first
    /\ locationTrendsData !! 9%nat = Some last
    /\ year first = 2015 /\ year last = 2024
    /\ countsObject first !! name entry = Some n
    /\ countsObject last !! name entry = Some m
    /\ isCagr (cagr entry) n m (year last - year first).
Proof.
  intros Hentry. eexists _, _.
  computed_cases Hentry; subst entry; eexists _, _;
    do 4 (split; [reflexivity|]);
    (split; [vm_compute; reflexivity|]);
    (split; [vm_compute; reflexivity|]);
    split; apply Qle_bool_imp_le; vm_compute; reflexivity.
Qed.

(** Network Server: from 11 to 330 in 9 years is 45.92 percent a year. *)
Lemma cagr_literals_match_counts_network_server :
  exists (first last : counts) (n m : Z),
    locationTrendsData !! 0%nat = Some first
    /\ locationTrendsData !! 9%nat = Some last
    /\ year first = 2015 /\ year last = 2024
    /\ countsObject first !! "Network Server" = Some n
    /\ countsObject last !! "Network Server" = Some m
    /\ isCagr 45.92 n m (year last - year first).
Proof.
  apply (cagr_literals_match_counts
           {| name := "Network Server"; cagr := 45.92 |}).
  apply list_elem_of_In. vm_compute. tauto.
Defined.

(** ** The growth series on other tables *)

Lemma pointsAfter_app (prev : option counts) (table extra : list counts) :
  pointsAfter prev (table ++ extra)
  = pointsAfter prev table
    ++ pointsAfter (match last table with Some r => Some r | None => prev end)
         extra.
Proof.
  revert prev. induction table as [|r table IH]; intros prev; [reflexivity|].
  simpl. rewrite IH. clear IH. f_equal. f_equal.
  destruct table as [|r' table]; [reflexivity|].
  rewrite last_cons_cons.
  destruct (last (r' :: table)) eqn:Hlast; [reflexivity|].
  apply last_None in Hlast. discriminate Hlast.
Qed.

Lemma late_points_dropped (prev : option counts) (extra : list counts) :
  Forall (fun row => 2025 <= year row) extra ->
  filter (λ item, gyear item < 2025) (pointsAfter prev extra) = [].
Proof.
  intros Hlate. revert prev.
  induction Hlate as [|r extra Hr _ IH]; intros prev; [reflexivity|].
  simpl. rewrite filter_cons_False; [apply IH|].
  destruct prev; simpl; lia.
Qed.

(** X10: rows appended to a table for the year 2025 or a later one never
    change the series, whatever their counts: the series stays the one of
    the table without them. *)
Theorem growth_series_ignores_late_rows (table extra : list counts) :
  Forall (fun row => 2025 <= year row) extra ->
  growthSeries (table ++ extra) = growthSeries table.
Proof.
  intros Hlate. rewrite !growthSeries_eq, pointsAfter_app, filter_app.
  rewrite (late_points_dropped _ extra Hlate), app_nil_r. reflexivity.
Qed.

(** The literal table is its rows up to 2024 and the row of 2025. *)
Lemma growth_series_ignores_late_rows_2025 :
  exists early late,
    locationTrendsData = early ++ late
    /\ length late = 1%nat
    /\ networkServerGrowthData = growthSeries early.
Proof.
  exists (take 10 locationTrendsData), (drop 10 locationTrendsData).
  split; [reflexivity|]. split; [reflexivity|].
  apply (growth_series_ignores_late_rows (take 10 locationTrendsData)
           (drop 10 locationTrendsData)).
  repeat constructor. simpl. lia.
Defined.

Lemma pointAfter_columns (prev prev' : option counts) (item item' : counts) :
  Network_Server <$> prev = Network_Server <$> prev' ->
  year item = year item' -> Network_Server item = Network_Server item' ->
  pointAfter prev item = pointAfter prev' item'.
Proof.
  intros Hprev Hyear Hcount.
  destruct prev as [p|], prev' as [p'|]; try discriminate Hprev; simpl.
  - injection Hprev as Hprev.
    unfold growthRate, growthQuotient. rewrite Hyear, Hcount, Hprev.
    reflexivity.
  - rewrite Hyear. reflexivity.
Qed.

Lemma pointsAfter_columns (prev prev' : option counts) (table table' : list counts) :
  Network_Server <$> prev = Network_Server <$> prev' ->
  map (fun row => (year row, Network_Server row)) table
  = map (fun row => (year row, Network_Server row)) table' ->
  pointsAfter prev table = pointsAfter prev' table'.
Proof.
  revert prev prev' table'.
  induction table as [|r table IH]; intros prev prev' [|r' table'] Hprev Hmap;
    try discriminate Hmap; [reflexivity|].
  simpl in Hmap. injection Hmap as Hyear Hcount Hmap. simpl.
  f_equal; [apply pointAfter_columns; assumption|].
  apply IH; [simpl; congruence|exact Hmap].
Qed.

(** X11: the series reads only the years and the Network Server counts of
    its table: two tables that agree on these two columns have the same
    series, whatever their other columns and their Totals hold. *)
Theorem growth_series_reads_two_columns (table table' : list counts) :
  map (fun row => (year row, Network_Server row)) table
  = map (fun row => (year row, Network_Server row)) table' ->
  growthSeries table = growthSeries table'.
Proof.
  intros Hcolumns. rewrite !growthSeries_eq.
  rewrite (pointsAfter_columns None None table table') by (reflexivity || exact Hcolumns).
  reflexivity.
Qed.

(** The literal table and the table of its years and Network Server counts
    alone. *)
Lemma growth_series_reads_two_columns_literal :
  networkServerGrowthData
  = growthSeries
      (map (fun row =>
              {| year := year row; Network_Server := Network_Server row;
                 Email := 0; Electronic_Medical_Record := 0; Paper_Films := 0;
                 Other := 0; Desktop_Computer := 0; Total := 0 |})
         locationTrendsData).
Proof.
  apply (growth_series_reads_two_columns locationTrendsData). reflexivity.
Defined.

(** ** The ranking is determined *)

(** X12: the ranking does not depend on how the engine sorts. Where the
    comparator is consistent on an array of entries, every arrangement of
    the array that is in the order of the comparator and keeps the entries
    it holds equal in the order they had is the ranking. *)
Theorem ranking_is_determined (entries arranged : list growthRateEntry) :
  consistentb byCagrDescending entries = true ->
  arranged ≡ₚ entries ->
  StronglySorted (may_precede byCagrDescending) arranged ->
  (forall k, k ∈ entries ->
     filter (tied byCagrDescending k) arranged
     = filter (tied byCagrDescending k) entries) ->
  arranged = Array_sort byCagrDescending entries.
Proof.
  intros Hcons. apply Array_sort_unique, consistentb_consistent, Hcons.
Qed.

(** Two entries with one value between two others. *)
Lemma ranking_is_determined_tie :
  let a := {| name := "A"; cagr := 1.5 |} in
  let b := {| name := "B"; cagr := 2.5 |} in
  let c := {| name := "C"; cagr := 1.5 |} in
  let d := {| name := "D"; cagr := -1.0 |} in
  [b; a; c; d] = Array_sort byCagrDescending [a; d; b; c].
Proof.
  intros a b c d.
  apply (ranking_is_determined [a; d; b; c] [b; a; c; d]).
  - vm_compute. reflexivity.
  - etrans; [apply perm_swap|]. apply perm_skip.
    apply (Permutation_app_comm [b; c] [d]).
  - repeat (constructor; [|repeat (constructor; [vm_compute; reflexivity|]);
                           constructor]).
    constructor.
  - intros k Hk. computed_cases Hk; subst k; vm_compute; reflexivity.
Defined.

(** ** The first row and the rows that are dropped *)

(** X13: the series of an empty table is empty, and the series of a table
    whose first row is of a year below 2025 starts with the point of that
    year with growth 0, whatever the counts of the row. *)
Theorem growth_series_first_point :
  growthSeries [] = Some []
  /\ forall (item : counts) (rest : list counts),
       year item < 2025 ->
       exists points,
         growthSeries (item :: rest)
         = Some ({| gyear := year item; growth := zero |} :: points).
Proof.
  split; [reflexivity|].
  intros item rest Hyear. rewrite growthSeries_eq. simpl pointsAfter.
  rewrite filter_cons_True by exact Hyear. eexists. reflexivity.
Qed.

(** A table of one row. *)
Lemma growth_series_first_point_single :
  exists points,
    growthSeries
      [ {| year := 2020; Network_Server := 199; Email := 167;
           Electronic_Medical_Record := 22; Paper_Films := 24; Other := 40;
           Desktop_Computer := 3; Total := 455 |} ]
    = Some ({| gyear := 2020; growth := zero |} :: points).
Proof.
  apply (proj2 growth_series_first_point). simpl. lia.
Defined.

(** X14: the filter comes after the map, so the growth of a row is always
    taken against the row right before it in the table, also when that row
    is itself dropped from the series: for every table and every row of a
    year below 2025 that follows another row, the series has the point of
    that year whose growth is computed from the two. *)
Theorem growth_point_in_series (table : list counts) (i : nat)
    (prev item : counts) :
  table !! i = Some prev -> table !! S i = Some item -> year item < 2025 ->
  exists points,
    growthSeries table = Some points
    /\ {| gyear := year item; growth := parseFloat (growthRate prev item) |}
       ∈ points.
Proof.
  intros Hprev Hitem Hyear. rewrite growthSeries_eq. eexists.
  split; [reflexivity|].
  apply list_elem_of_filter. split; [exact Hyear|].
  apply list_elem_of_lookup. exists (S i).
  apply (pointsAfter_lookup table None i prev item); assumption.
Qed.

(** A row of 2024 after a row of 2025: the point of 2024 doubles the count
    of the row before it, which the series does not show. *)
Lemma growth_point_in_series_after_dropped_row :
  let row y n :=
    {| year := y; Network_Server := n; Email := 0;
       Electronic_Medical_Record := 0; Paper_Films := 0; Other := 0;
       Desktop_Computer := 0; Total := n |} in
  exists points,
    growthSeries [row 2025 10; row 2024 20] = Some points
    /\ {| gyear := 2024; growth := lit 100.0 |} ∈ points
    /\ map gyear points = [2024].
Proof.
  intros row.
  destruct (growth_point_in_series [row 2025 10; row 2024 20] 0
              (row 2025 10) (row 2024 20) eq_refl eq_refl)
    as (points & Hpoints & Hin); [simpl; lia|].
  exists points. split; [exact Hpoints|].
  vm_compute in Hpoints. injection Hpoints as <-.
  split; [exact Hin|reflexivity].
Defined.
